(** * convert.py: listing the metadata of the mp3 files of a directory

    A shallow embedding of [convert.py] and the properties of its three
    stages: the directory scan ([get_mp3_files]), the per-file tag
    extraction ([get_title_and_comments], [format_duration]) and the
    report loop with its YAML output.

    Conventions.
    - A Python [str] is a [string]; a text with characters outside ASCII is
      held by its UTF-8 bytes, as Rocq's own string literals are.
    - A Python [int] is a [Z], a [float] is an IEEE value [spec_float].
    - A [dict] is an association list in insertion order: assigning to a key
      that exists keeps its position, a new key goes to the end.
    - A call that may raise returns a [result]; only the text [str(e)] of an
      exception is ever looked at by the script. *)

From Stdlib Require Import ZArith NArith QArith Qround Lia Bool List.
From Stdlib Require Import Ascii String DecimalString DecimalN DecimalPos.
From Stdlib Require Import SpecFloat.
Import ListNotations.

Local Open Scope string_scope.
Local Open Scope Z_scope.

(** ** Python values and builtins *)

Module Py.

(** Outcome of a call: a value, or an exception with its message. *)
Inductive result (A : Type) : Type :=
| Ok (a : A)
| Raise (msg : string).
Arguments Ok {A} a.
Arguments Raise {A} msg.

Definition bind {A B} (r : result A) (k : A -> result B) : result B :=
  match r with
  | Ok a => k a
  | Raise msg => Raise msg
  end.

(** The values the script stores in its dicts: [None] or a [str]. *)
Inductive value : Type :=
| VNone
| VStr (s : string).

Definition of_option (o : option string) : value :=
  match o with
  | Some s => VStr s
  | None => VNone
  end.

(** *** dict, in insertion order *)

Definition dict := list (string * value).

Fixpoint getitem (d : dict) (k : string) : option value :=
  match d with
  | [] => None
  | (k', v) :: t => if String.eqb k' k then Some v else getitem t k
  end.

(** [d[k] = v] *)
Fixpoint setitem (d : dict) (k : string) (v : value) : dict :=
  match d with
  | [] => [(k, v)]
  | (k', v') :: t =>
      if String.eqb k' k then (k', v) :: t else (k', v') :: setitem t k v
  end.


(** [d.get(k)]: [None] for a missing key too. *)
Definition get (d : dict) (k : string) : value :=
  match getitem d k with
  | Some v => v
  | None => VNone
  end.

Definition contains (d : dict) (k : string) : bool :=
  match getitem d k with
  | Some _ => true
  | None => false
  end.

(** *** str *)

Definition lower_ascii (c : ascii) : ascii :=
  let n := N_of_ascii c in
  if ((65 <=? n) && (n <=? 90))%N then ascii_of_N (n + 32) else c.

(** [s.lower()]; on the bytes of a UTF-8 text only the ASCII letters
    move, which is all that a test against an ASCII suffix can see. *)
Fixpoint lower (s : string) : string :=
  match s with
  | EmptyString => EmptyString
  | String c t => String (lower_ascii c) (lower t)
  end.

(** [s.endswith(suffix)] *)
Definition endswith (s suffix : string) : bool :=
  let n := String.length s in
  let m := String.length suffix in
  (m <=? n)%nat && String.eqb (substring (n - m) m s) suffix.

(** *** int *)

(** [str(n)] for [n >= 0] *)
Definition str_N (n : N) : string := NilEmpty.string_of_uint (N.to_uint n).

Fixpoint zeros (k : nat) : string :=
  match k with
  | O => EmptyString
  | S k' => String "0" (zeros k')
  end.

(** [format(z, "0w")]: zero fill up to width [w], the sign counted in the
    width and put before the zeros. *)
Definition format_zero (w : nat) (z : Z) : string :=
  let digits := str_N (Z.abs_N z) in
  if z <? 0
  then String "-" (zeros (w - 1 - String.length digits) ++ digits)
  else zeros (w - String.length digits) ++ digits.

(** Grouping of a digit string read from its right end: a separator
    before every fourth digit. [k] counts the digits left in the group. *)
Fixpoint insert_sep (l : list ascii) (k : nat) : list ascii :=
  match l with
  | [] => []
  | c :: t =>
      match k with
      | O => ","%char :: c :: insert_sep t 2
      | S k' => c :: insert_sep t k'
      end
  end.

Definition group3 (digits : string) : string :=
  string_of_list_ascii
    (rev (insert_sep (rev (list_ascii_of_string digits)) 3)).

(** [format(z, ",")] *)
Definition format_comma (z : Z) : string :=
  let body := group3 (str_N (Z.abs_N z)) in
  if z <? 0 then String "-" body else body.

(** *** float *)

Definition float := spec_float.

(** [int(x)]: the float cut towards zero; NaN and the infinities raise. *)
Definition int_of_float (x : float) : result Z :=
  match x with
  | S754_zero _ => Ok 0
  | S754_infinity _ => Raise "cannot convert float infinity to integer"
  | S754_nan => Raise "cannot convert float NaN to integer"
  | S754_finite s m e =>
      let a := Z.shiftl (Zpos m) e in
      Ok (if s then - a else a)
  end.

(** The number a finite float stands for: [(-1)^s * m * 2^e]. *)
Definition float_value (x : float) : option Q :=
  match x with
  | S754_zero _ => Some 0%Q
  | S754_infinity _ => None
  | S754_nan => None
  | S754_finite s m e =>
      let n := if s then Zneg m else Zpos m in
      Some (match e with
            | Z0 => n # 1
            | Zpos p => (n * 2 ^ Zpos p) # 1
            | Zneg p => n # (2 ^ p)%positive
            end)
  end.

End Py.

Import Py.

(** ** The file system, as [os] and [os.path] show it *)

Module Os.

(** What a name of a directory stands for. A link is followed by
    [os.path.isfile] and [os.path.getsize]; [None] is a dangling link. *)
#[warnings="-register-all"]
Inductive node : Type :=
| RegularFile (size : N)
| Directory (children : list (string * node))
| Symlink (target : option node)
| Special.

(** The path given to the scan: nothing there, or a directory with its
    entries in the order [os.listdir] returns them. *)
Definition tree := option (list (string * node)).

Definition exists_ (t : tree) : bool :=
  match t with
  | Some _ => true
  | None => false
  end.

Definition listdir (t : tree) : list (string * node) :=
  match t with
  | Some entries => entries
  | None => []
  end.

(** [os.path.isfile] *)
Fixpoint isfile (n : node) : bool :=
  match n with
  | RegularFile _ => true
  | Symlink (Some t) => isfile t
  | _ => false
  end.

(** [os.path.getsize], asked only of what [isfile] accepts. *)
Fixpoint getsize (n : node) : N :=
  match n with
  | RegularFile size => size
  | Symlink (Some t) => getsize t
  | _ => 0%N
  end.

(** [os.path.join(a, b)] for a relative [b] *)
Definition join (a b : string) : string :=
  if (String.length a =? 0)%nat || endswith a "/" then a ++ b
  else a ++ "/" ++ b.

End Os.

(** ** The tag decoder (mutagen) *)

Module Mutagen.

(** A text frame ([TIT2]) or a comment frame ([COMM]): its [text] list. *)
Record frame : Type := { text : list string }.

(** An opened tag container: [audio.get('TIT2')], [audio.getall('COMM')]. *)
Record id3 : Type := { TIT2 : option frame; COMM : list frame }.

Record mpeg_info : Type := { length : float }.

(** The object [MP3(path)]: its truth value (Python asks its [__len__],
    the number of tag keys) and its [info]. *)
Record mp3 : Type := { truthy : bool; info : option mpeg_info }.

(** The two constructors the script imports; each may raise. *)
Record decoder : Type :=
  { ID3 : string -> result id3;
    MP3 : string -> result mp3 }.

End Mutagen.

(** ** The serializer (PyYAML)

    [yaml.dump(results, f, allow_unicode=True, sort_keys=False)] is a call
    into a library that is no part of the script. Modelled here, after the
    representer and the emitter of PyYAML, is what the two options of the
    call select: the order of the keys of a mapping, and for every
    character of a scalar whether it is written as itself or as a
    backslash escape. The choice between the plain and the quoted styles
    is kept only as far as it decides that; indentation, quote marks and
    line folding are left out. The file is opened with
    [encoding="utf-8"], so a character written as itself is its UTF-8
    bytes. *)

Module Yaml.

(** One character of a text: its code point and its UTF-8 bytes. *)
Definition uchar : Type := N * string.

Definition cont (c : ascii) : option N :=
  let n := N_of_ascii c in
  if ((0x80 <=? n) && (n <? 0xC0))%N then Some (n - 0x80)%N else None.

(** A byte that starts no well-formed sequence is kept apart as a lone
    surrogate, as Python's [surrogateescape] does. *)
Definition stray (b : ascii) : uchar := ((0xDC00 + N_of_ascii b)%N, String b "").

Fixpoint decode (s : string) : list uchar :=
  match s with
  | EmptyString => []
  | String b0 t =>
      let n0 := N_of_ascii b0 in
      if (n0 <? 0x80)%N then (n0, String b0 "") :: decode t
      else if (n0 <? 0xC2)%N then stray b0 :: decode t
      else if (n0 <? 0xE0)%N then
        match t with
        | String b1 t1 =>
            match cont b1 with
            | Some n1 =>
                (((n0 - 0xC0) * 64 + n1)%N, String b0 (String b1 "")) :: decode t1
            | None => stray b0 :: decode t
            end
        | _ => stray b0 :: decode t
        end
      else if (n0 <? 0xF0)%N then
        match t with
        | String b1 (String b2 t2) =>
            match cont b1, cont b2 with
            | Some n1, Some n2 =>
                ((((n0 - 0xE0) * 64 + n1) * 64 + n2)%N,
                 String b0 (String b1 (String b2 ""))) :: decode t2
            | _, _ => stray b0 :: decode t
            end
        | _ => stray b0 :: decode t
        end
      else if (0xF5 <=? n0)%N then stray b0 :: decode t
      else
        match t with
        | String b1 (String b2 (String b3 t3)) =>
            match cont b1, cont b2, cont b3 with
            | Some n1, Some n2, Some n3 =>
                (((((n0 - 0xF0) * 64 + n1) * 64 + n2) * 64 + n3)%N,
                 String b0 (String b1 (String b2 (String b3 "")))) :: decode t3
            | _, _, _ => stray b0 :: decode t
            end
        | _ => stray b0 :: decode t
        end
  end.

Definition between (lo hi n : N) : bool := ((lo <=? n) && (n <=? hi))%N.

(** [analyze_scalar]: a character that rules out every style but the
    double-quoted one. *)
Definition special (allow_unicode : bool) (cp : N) : bool :=
  if (cp =? 0x0A)%N || between 0x20 0x7E cp then false
  else if ((cp =? 0x85)%N || between 0xA0 0xD7FF cp || between 0xE000 0xFFFD cp
           || ((0x10000 <=? cp) && (cp <? 0x10FFFF))%N)
          && negb (cp =? 0xFEFF)%N
       then negb allow_unicode
       else true.

Definition is_break (cp : N) : bool :=
  ((cp =? 0x0A) || (cp =? 0x85) || (cp =? 0x2028) || (cp =? 0x2029))%N.

(** A space right before a line break also forces double quotes. *)
Fixpoint space_break (l : list uchar) : bool :=
  match l with
  | (a, _) :: (((b, _) :: _) as t) =>
      ((a =? 0x20)%N && is_break b) || space_break t
  | _ => false
  end.

Definition double_quoted (allow_unicode : bool) (l : list uchar) : bool :=
  space_break l || existsb (fun c => special allow_unicode (fst c)) l.

(** [write_double_quoted]: the characters it replaces by an escape. *)
Definition escaped (allow_unicode : bool) (cp : N) : bool :=
  ((cp =? 0x22) || (cp =? 0x5C) || (cp =? 0x85) || (cp =? 0x2028)
   || (cp =? 0x2029) || (cp =? 0xFEFF))%N
  || negb (between 0x20 0x7E cp
           || (allow_unicode && (between 0xA0 0xD7FF cp || between 0xE000 0xFFFD cp))).

Definition hex_digit (n : N) : ascii :=
  if (n <? 10)%N then ascii_of_N (48 + n) else ascii_of_N (55 + n).

Fixpoint hex (width : nat) (n : N) : string :=
  match width with
  | O => EmptyString
  | S w => hex w (n / 16) ++ String (hex_digit (n mod 16)) ""
  end.

Definition escape_replacements : list (N * string) :=
  [ (0x00, "0"); (0x07, "a"); (0x08, "b"); (0x09, "t"); (0x0A, "n");
    (0x0B, "v"); (0x0C, "f"); (0x0D, "r"); (0x1B, "e"); (0x22, String (ascii_of_N 0x22) "");
    (0x5C, "\"); (0x85, "N"); (0xA0, "_"); (0x2028, "L"); (0x2029, "P") ]%N.

Fixpoint assoc (l : list (N * string)) (cp : N) : option string :=
  match l with
  | [] => None
  | (k, v) :: t => if (k =? cp)%N then Some v else assoc t cp
  end.

Definition escape (cp : N) : string :=
  match assoc escape_replacements cp with
  | Some r => "\" ++ r
  | None =>
      if (cp <=? 0xFF)%N then "\x" ++ hex 2 cp
      else if (cp <=? 0xFFFF)%N then "\u" ++ hex 4 cp
      else "\U" ++ hex 8 cp
  end.

(** A character as it stands in the document. *)
Inductive written : Type :=
| Literal (bytes : string)
| Escape (seq : string).

Definition write_scalar (allow_unicode : bool) (s : string) : list written :=
  let l := decode s in
  if double_quoted allow_unicode l
  then map (fun c => if escaped allow_unicode (fst c)
                     then Escape (escape (fst c)) else Literal (snd c)) l
  else map (fun c => Literal (snd c)) l.

Definition represent (allow_unicode : bool) (v : value) : list written :=
  match v with
  | VNone => [Literal "null"]
  | VStr s => write_scalar allow_unicode s
  end.

(** [sorted(mapping.items())] when [sort_keys] is set *)
Fixpoint insert_sorted (kv : string * value) (l : dict) : dict :=
  match l with
  | [] => [kv]
  | h :: t => if String.leb (fst kv) (fst h) then kv :: l
              else h :: insert_sorted kv t
  end.

Definition items (sort_keys : bool) (d : dict) : dict :=
  if sort_keys then fold_right insert_sorted [] d else d.

Definition mapping : Type := list (string * list written).
Definition document : Type := list mapping.

Definition dump (data : list dict) (allow_unicode sort_keys : bool) : document :=
  map (fun d => map (fun kv => (fst kv, represent allow_unicode (snd kv)))
                    (items sort_keys d)) data.

End Yaml.

(** ** The script *)

Module Convert.

Import Os Mutagen.

(** An element of [mp3_files]: the dict with the keys ['path'],
    ['filename'] and ['size']. *)
Record candidate : Type :=
  { path : string; filename : string; size : N }.

(** [get_mp3_files(directory)] *)
Definition get_mp3_files (directory : string) (t : tree) : list candidate :=
  if exists_ t then
    flat_map (fun entry =>
      let '(filename, n) := entry in
      let file_path := join directory filename in
      if isfile n && endswith (lower filename) ".mp3"
      then [ {| path := file_path;
                filename := "/audio/" ++ filename;
                size := getsize n |} ]
      else []) (listdir t)
  else [].

(** [format_duration(seconds)] *)
Definition format_duration (seconds : option float) : result (option string) :=
  match seconds with
  | None => Ok None
  | Some x =>
      bind (int_of_float x) (fun seconds =>
      let hours := seconds / 3600 in
      let minutes := (seconds mod 3600) / 60 in
      let secs := seconds mod 60 in
      Ok (Some (format_zero 2 hours ++ ":" ++ format_zero 2 minutes
                ++ ":" ++ format_zero 2 secs)))
  end.

(** The dict of the two error returns (lines 60 and 76). *)
Definition error_record (mp3_file msg : string) : dict :=
  [ ("file", VStr mp3_file); ("title", VNone); ("comments", VNone);
    ("duration", VNone); ("error", VStr msg) ].

(** The body of the [try] of [get_title_and_comments]. *)
Definition read_tags (m : decoder) (mp3_file : string) : result dict :=
  bind (ID3 m mp3_file) (fun audio =>
  bind (MP3 m mp3_file) (fun mp3_audio =>
  let title := TIT2 audio in
  let comments_frames := COMM audio in
  let comments :=
    match comments_frames with
    | f :: _ => match text f with
                | c :: _ => Some c
                | [] => None
                end
    | [] => None
    end in
  let duration :=
    if truthy mp3_audio
    then match info mp3_audio with
         | Some i => Some (length i)
         | None => None
         end
    else None in
  let title_value :=
    match title with
    | Some f => match text f with
                | t :: _ => VStr t
                | [] => VNone
                end
    | None => VNone
    end in
  let description_value :=
    match comments with
    | Some c => if (String.length c =? 0)%nat then VNone else VStr c
    | None => VNone
    end in
  bind (format_duration duration) (fun d =>
  Ok [ ("title", title_value);
       ("description", description_value);
       ("duration", of_option d) ]))).

(** [get_title_and_comments(mp3_file)]; [mutagen] is [None] when the
    import failed, which leaves both [ID3] and [MP3] at [None]. *)
Definition get_title_and_comments (mutagen : option decoder) (mp3_file : string) : dict :=
  match mutagen with
  | None => error_record mp3_file "mutagen not installed"
  | Some m =>
      match read_tags m mp3_file with
      | Ok fields => fields
      | Raise e => error_record mp3_file e
      end
  end.

(** The body of the main loop for one [mp3_info]. *)
Definition record_of (mutagen : option decoder) (mp3_info : candidate) : dict :=
  let fields := get_title_and_comments mutagen (path mp3_info) in
  let fields := setitem fields "file" (VStr (filename mp3_info)) in
  setitem fields "length" (VStr (format_comma (Z.of_N (size mp3_info)))).

(** The main loop: [results] grows by one record per element. *)
Fixpoint main_loop (mutagen : option decoder) (mp3_files : list candidate)
    (results : list dict) : list dict :=
  match mp3_files with
  | [] => results
  | mp3_info :: rest =>
      main_loop mutagen rest (results ++ [record_of mutagen mp3_info])
  end.

(** What a run finds: the tree at ['audio'] and the two optional
    libraries. *)
Record world : Type :=
  { audio : tree;
    mutagen : option decoder;
    yaml : bool }.

(** What a run leaves: the list [results], the file [episodes.yml] when
    it was written, and the line printed. *)
Record outcome : Type :=
  { results : list dict;
    episodes_yml : option Yaml.document;
    printed : string }.

Definition main (w : world) : outcome :=
  let mp3_files := get_mp3_files "audio" (audio w) in
  let results := main_loop (mutagen w) mp3_files [] in
  if yaml w
  then {| results := results;
          episodes_yml := Some (Yaml.dump results true false);
          printed := "YAML written to episodes.yml" |}
  else {| results := results;
          episodes_yml := None;
          printed := "PyYAML is not installed. Please install it with 'pip install pyyaml'." |}.

End Convert.

Import Os Mutagen Convert.

(** ** The vocabulary of the specification *)

Module Spec.

(** A field is null when reading it gives [None]; the data model takes a
    field that is absent and a field that is null for the same. *)
Definition null (d : dict) (k : string) : Prop := get d k = VNone.

Definition fully_null (d : dict) : Prop :=
  null d "title" /\ null d "description" /\ null d "duration".

Definition has_error (d : dict) : Prop :=
  exists msg, getitem d "error" = Some (VStr msg).

(** An extraction attempt fails when the decoder is missing or when
    something raises while the tags are read. *)
Definition extraction_fails (mutagen : option decoder) (mp3_file : string) : Prop :=
  match mutagen with
  | None => True
  | Some m => exists msg, read_tags m mp3_file = Raise msg
  end.


Definition one_of (a b c : ascii) : bool := Ascii.eqb c a || Ascii.eqb c b.

(** The name ends with [.mp3], letters in either case. *)
Definition audio_extension (name : string) : bool :=
  match rev (list_ascii_of_string name) with
  | c4 :: c3 :: c2 :: c1 :: _ =>
      Ascii.eqb c1 "." && one_of "m" "M" c2 && one_of "p" "P" c3
      && Ascii.eqb c4 "3"
  | _ => false
  end.

(** The scanner's filter on a directory entry. *)
Definition passes (entry : string * node) : bool :=
  isfile (snd entry) && audio_extension (fst entry).

(** The candidate an entry that passes stands for. *)
Definition candidate_of (directory : string) (entry : string * node) : candidate :=
  {| path := join directory (fst entry);
     filename := "/audio/" ++ fst entry;
     size := getsize (snd entry) |}.

Definition is_comma (c : ascii) : bool := Ascii.eqb c ",".

(** [s] is [n] with a separator every three digits from the right:
    without its commas [s] is the decimal writing of [n], and counting
    from the right end the commas are the places 3, 7, 11, ... *)
Definition grouped (s : string) (n : N) : Prop :=
  string_of_list_ascii
    (filter (fun c => negb (is_comma c)) (list_ascii_of_string s)) = str_N n
  /\ forall i, (i < String.length s)%nat ->
       (nth i (rev (list_ascii_of_string s)) "0"%char = ","%char
        <-> (i mod 4 = 3)%nat).

(** The integer part of [q], cut towards zero. *)
Definition trunc (q : Q) : Z :=
  if Qle_bool 0 q then Qfloor q else Qceiling q.

(** [s mod n] on the rationals *)
Definition fmod (s : Q) (n : Z) : Q :=
  (s - inject_Z n * inject_Z (Qfloor (s / inject_Z n)))%Q.

(** A number written in decimal with zeros in front up to two digits. *)
Definition pad2 (n : Z) : string :=
  let d := str_N (Z.abs_N n) in
  let d := if (String.length d <? 2)%nat then String "0" d else d in
  if n <? 0 then String "-" d else d.

(** [HH:MM:SS] as the specification computes it from the raw seconds. *)
Definition hhmmss (s : Q) : string :=
  pad2 (Qfloor (s / inject_Z 3600)) ++ ":"
  ++ pad2 (Qfloor (fmod s 3600 / inject_Z 60)) ++ ":"
  ++ pad2 (Qfloor (fmod s 60)).

(** Reading a duration back: the fields between the colons, as numbers. *)
Fixpoint split_colon (s : string) : list string :=
  match s with
  | EmptyString => [EmptyString]
  | String c t =>
      if Ascii.eqb c ":" then EmptyString :: split_colon t
      else match split_colon t with
           | h :: r => String c h :: r
           | [] => [String c EmptyString]
           end
  end.

Definition read_number (s : string) : option Z :=
  match s with
  | EmptyString => None
  | _ => option_map (fun d => Z.of_N (N.of_uint d)) (NilEmpty.uint_of_string s)
  end.

Definition read_duration (s : string) : option (Z * Z * Z) :=
  match split_colon s with
  | [a; b; c] =>
      match read_number a, read_number b, read_number c with
      | Some h, Some m, Some s => Some (h, m, s)
      | _, _, _ => None
      end
  | _ => None
  end.






Definition bytes_of (w : Yaml.written) : string :=
  match w with
  | Yaml.Literal b => b
  | Yaml.Escape e => e
  end.

Fixpoint bytes (l : list Yaml.written) : string :=
  match l with
  | [] => EmptyString
  | w :: t => bytes_of w ++ bytes t
  end.

End Spec.

(** ** Sample data *)

Module Sample.

(** 3725.9, that is [0x1.d1bcccccccccdp+11] *)
Definition seconds_3725_9 : float := S754_finite false 0x1d1bcccccccccd (-41).

(** -0.5 *)
Definition minus_half : float := S754_finite true 1 (-1).

(** 360000.0, a hundred hours *)
Definition hundred_hours : float := S754_finite false 360000 0.

Definition cafe : string := "Café".

(** A decoder for which every file opens, with a title, two comment
    frames and a length. *)
Definition tagged : decoder :=
  {| ID3 := fun _ =>
       Ok {| TIT2 := Some {| text := [cafe] |};
             COMM := [ {| text := ["first"; "more"] |}; {| text := ["second"] |} ] |};
     MP3 := fun _ =>
       Ok {| truthy := true; info := Some {| length := seconds_3725_9 |} |} |}.


(** A decoder that cannot read any file. *)
Definition broken : decoder :=
  {| ID3 := fun _ => Raise "can't sync to MPEG frame";
     MP3 := fun _ => Raise "can't sync to MPEG frame" |}.

(** The directory of the filter example: two files and a directory
    named like an audio file, itself holding one. *)
Definition mixed_dir : list (string * node) :=
  [ ("a.MP3", RegularFile 1234567);
    ("b.txt", RegularFile 3);
    ("c.mp3", Directory [("d.mp3", RegularFile 4)]) ].

Definition episode_dir : list (string * node) :=
  [ ("episode1.mp3", RegularFile 2048) ].

Definition no_decoder : world :=
  {| audio := Some episode_dir; mutagen := None; yaml := true |}.

Definition no_directory_no_yaml : world :=
  {| audio := None; mutagen := Some tagged; yaml := false |}.

Definition no_directory : world :=
  {| audio := None; mutagen := Some tagged; yaml := true |}.


(** The record the scenario of the missing decoder is said to give. *)
Definition scenario_record : dict :=
  [ ("title", VNone); ("description", VNone); ("duration", VNone);
    ("error", VStr "mutagen not installed");
    ("file", VStr "/audio/episode1.mp3"); ("length", VStr "2,048") ].

End Sample.

(** ** What the extractor reads, and more sample data *)

Module Reads.

(** The first text of the title frame, if there is one. *)
Definition first_title (tags : id3) : option string :=
  match TIT2 tags with
  | Some f => hd_error (text f)
  | None => None
  end.

(** The first text of the first comment frame, if there is one. *)
Definition first_comment (tags : id3) : option string :=
  match COMM tags with
  | f :: _ => hd_error (text f)
  | [] => None
  end.

(** The length the stream reports, when the object is true and has an
    [info]. *)
Definition reported_length (a : mp3) : option float :=
  if truthy a then option_map Mutagen.length (info a) else None.

(** The message of [int] for a float that is no number. *)
Definition int_message (x : float) : option string :=
  match x with
  | S754_nan => Some "cannot convert float NaN to integer"
  | S754_infinity _ => Some "cannot convert float infinity to integer"
  | _ => None
  end.

(** Reading a grouped number: the commas dropped, the rest in decimal. *)
Definition read_grouped (s : string) : option N :=
  option_map N.of_uint
    (NilEmpty.uint_of_string
       (string_of_list_ascii
          (filter (fun c => negb (Spec.is_comma c)) (list_ascii_of_string s)))).

(** A field other than the two the main loop sets. *)
Definition other_field (kv : string * value) : bool :=
  negb (String.eqb (fst kv) "file") && negb (String.eqb (fst kv) "length").

(** A world with the listing [entries] at ['audio']. *)
Definition with_entries (w : world) (entries : list (string * node)) : world :=
  {| audio := Some entries; mutagen := mutagen w; yaml := yaml w |}.

(** -1.5 *)
Definition minus_one_and_a_half : float := S754_finite true 3 (-1).

(** 3725.0 *)
Definition seconds_3725 : float := S754_finite false 3725 0.

(** As [Sample.tagged], with other entries after the first ones. *)
Definition tagged_otherwise : decoder :=
  {| ID3 := fun _ =>
       Ok {| TIT2 := Some {| text := [Sample.cafe; "alias"] |};
             COMM := [ {| text := ["first"] |} ] |};
     MP3 := fun _ =>
       Ok {| truthy := true; info := Some {| length := Sample.seconds_3725_9 |} |} |}.

(** A decoder for which the tags open and the stream opens not. *)
Definition no_stream : decoder :=
  {| ID3 := fun _ => Ok {| TIT2 := Some {| text := [Sample.cafe] |}; COMM := [] |};
     MP3 := fun _ => Raise "can't sync to MPEG frame" |}.

(** A decoder for which the length of the stream is NaN. *)
Definition nan_length : decoder :=
  {| ID3 := fun _ => Ok {| TIT2 := Some {| text := [Sample.cafe] |}; COMM := [] |};
     MP3 := fun _ => Ok {| truthy := true; info := Some {| length := S754_nan |} |} |}.

(** A directory with nothing for the scanner. *)
Definition nothing_to_scan : world :=
  {| audio := Some [ ("b.txt", RegularFile 3); ("c.mp3", Directory []) ];
     mutagen := Some Sample.tagged; yaml := true |}.

End Reads.

(** ** Auxiliary notions of the proofs *)

(** A suffix of four characters. *)
Definition four (c1 c2 c3 c4 : ascii) : string :=
  String c1 (String c2 (String c3 (String c4 ""))).

Definition extension_letters (c1 c2 c3 c4 : ascii) : bool :=
  Ascii.eqb c1 "." && Spec.one_of "m" "M" c2 && Spec.one_of "p" "P" c3
  && Ascii.eqb c4 "3".

Definition is_digit (c : ascii) : bool :=
  let n := N_of_ascii c in ((48 <=? n) && (n <=? 57))%N.

Definition not_comma (c : ascii) : bool := negb (Spec.is_comma c).

Definition not_colon (c : ascii) : bool := negb (Ascii.eqb c ":").


(** ** Dicts *)

Section DictFacts.

Variables (k : string) (v : value).

Lemma getitem_setitem_same (d : dict) : getitem (setitem d k v) k = Some v.
Proof.
  induction d as [|[k' v'] t IH]; simpl.
  - now rewrite String.eqb_refl.
  - destruct (String.eqb k' k) eqn:E; simpl; rewrite E; auto.
Qed.

Lemma getitem_setitem_other (d : dict) (k0 : string) :
  k0 <> k -> getitem (setitem d k v) k0 = getitem d k0.
Proof.
  intros Hne. induction d as [|[k' v'] t IH]; simpl.
  - destruct (String.eqb_spec k k0); congruence.
  - destruct (String.eqb_spec k' k) as [->|Hk]; simpl.
    + destruct (String.eqb_spec k k0); congruence.
    + now rewrite IH.
Qed.

End DictFacts.

Lemma get_setitem_other (d : dict) (k k0 : string) (v : value) :
  k0 <> k -> get (setitem d k v) k0 = get d k0.
Proof. intros H. unfold get. now rewrite getitem_setitem_other. Qed.

(** The fields the main loop sets leave every other key as it was. *)
Lemma record_of_other (mutagen : option decoder) (mp3_info : candidate) (k : string) :
  k <> "file" -> k <> "length" ->
  getitem (record_of mutagen mp3_info) k
  = getitem (get_title_and_comments mutagen (path mp3_info)) k.
Proof.
  intros Hf Hl. unfold record_of.
  rewrite getitem_setitem_other by assumption.
  now rewrite getitem_setitem_other by assumption.
Qed.

(** ** The extractor *)

(** What a successful read returns: the three data keys and nothing else. *)
Lemma read_tags_ok (m : decoder) (mp3_file : string) (fields : dict) :
  read_tags m mp3_file = Ok fields ->
  exists t c d, fields = [("title", t); ("description", c); ("duration", d)].
Proof.
  unfold read_tags, bind.
  destruct (ID3 m mp3_file) as [tags|]; [|discriminate].
  destruct (MP3 m mp3_file) as [mp3_audio|]; [|discriminate].
  destruct (format_duration _) as [d|]; [|discriminate].
  intros [= <-]. eauto.
Qed.

Lemma error_record_null (mp3_file msg : string) :
  Spec.fully_null (error_record mp3_file msg)
  /\ Spec.has_error (error_record mp3_file msg).
Proof.
  repeat split. exists msg. reflexivity.
Qed.

Lemma extractor_cases (mutagen : option decoder) (mp3_file : string) :
  (Spec.extraction_fails mutagen mp3_file
   /\ exists msg, get_title_and_comments mutagen mp3_file = error_record mp3_file msg)
  \/ (~ Spec.extraction_fails mutagen mp3_file
      /\ exists t c d, get_title_and_comments mutagen mp3_file
                       = [("title", t); ("description", c); ("duration", d)]).
Proof.
  destruct mutagen as [m|]; simpl.
  - destruct (read_tags m mp3_file) as [fields|msg] eqn:E.
    + right. split.
      * intros [msg Hmsg]. discriminate.
      * now apply read_tags_ok with (m := m) (mp3_file := mp3_file).
    + left. split; eauto.
  - left. split; eauto.
Qed.

(** C1. A failed extraction, be it for the missing decoder or for an
    exception while the file is read, gives a record whose title,
    description and duration are all null and that has an error field; and
    a record with an error field comes from a failed attempt only, so that
    no record has both an error field and a metadata value. This holds of
    the extractor's record and of the record the main loop makes of it. *)
Theorem failed_extraction_fully_null :
  forall (mutagen : option decoder) (mp3_info : candidate),
    Spec.extraction_fails mutagen (path mp3_info)
    \/ Spec.has_error (get_title_and_comments mutagen (path mp3_info))
    \/ Spec.has_error (record_of mutagen mp3_info) ->
    Spec.extraction_fails mutagen (path mp3_info)
    /\ Spec.fully_null (get_title_and_comments mutagen (path mp3_info))
    /\ Spec.has_error (get_title_and_comments mutagen (path mp3_info))
    /\ Spec.fully_null (record_of mutagen mp3_info)
    /\ Spec.has_error (record_of mutagen mp3_info).
Proof.
  intros mutagen mp3_info H.
  assert (Hmerge : forall k, k <> "file" -> k <> "length" ->
            get (record_of mutagen mp3_info) k
            = get (get_title_and_comments mutagen (path mp3_info)) k).
  { intros k Hf Hl. unfold get. now rewrite record_of_other. }
  destruct (extractor_cases mutagen (path mp3_info))
    as [[Hfail [msg Hrec]] | [Hok [t [c [d Hrec]]]]].
  - split; [assumption|].
    destruct (error_record_null (path mp3_info) msg) as [Hnull Herr].
    rewrite Hrec. repeat split; try apply Hnull; try assumption.
    + unfold Spec.null. rewrite Hmerge, Hrec by discriminate. reflexivity.
    + unfold Spec.null. rewrite Hmerge, Hrec by discriminate. reflexivity.
    + unfold Spec.null. rewrite Hmerge, Hrec by discriminate. reflexivity.
    + exists msg. rewrite record_of_other, Hrec by discriminate. reflexivity.
  - exfalso. destruct H as [H | [[msg H] | [msg H]]].
    + contradiction.
    + rewrite Hrec in H. discriminate.
    + rewrite record_of_other, Hrec in H by discriminate. discriminate.
Qed.

Lemma failed_extraction_fully_null_witness :
  let info := {| path := "audio/x.mp3"; filename := "/audio/x.mp3"; size := 7 |} in
  Spec.extraction_fails (Some Sample.broken) (path info)
  /\ Spec.fully_null (get_title_and_comments (Some Sample.broken) (path info))
  /\ Spec.has_error (get_title_and_comments (Some Sample.broken) (path info))
  /\ Spec.fully_null (record_of (Some Sample.broken) info)
  /\ Spec.has_error (record_of (Some Sample.broken) info).
Proof.
  intro info.
  apply (failed_extraction_fully_null (Some Sample.broken) info).
  left. simpl. exists "can't sync to MPEG frame". reflexivity.
Defined.



(** A title frame whose text list holds the empty string is not empty for
    the test of line 70: the title is then the empty string, while an empty
    comment becomes [None]. *)
Example empty_string_title :
  let m := {| ID3 := fun _ => Ok {| TIT2 := Some {| text := [""] |};
                                    COMM := [ {| text := [""] |} ] |};
              MP3 := fun _ => Ok {| truthy := true; info := None |} |} in
  get_title_and_comments (Some m) "audio/x.mp3"
  = [ ("title", VStr ""); ("description", VNone); ("duration", VNone) ].
Proof. reflexivity. Qed.

(** C9. With the decoder missing the extractor returns at once, for every
    file, the error record with the fixed message. For the one candidate
    [episode1.mp3] of 2048 bytes the run gives one record, and that record
    is not the one of the scenario: it has the key [comments] where the
    scenario, like the record of a file that decodes, has [description]. *)
Theorem missing_decoder_record :
  (forall mp3_file,
     get_title_and_comments None mp3_file
     = error_record mp3_file "mutagen not installed")
  /\ results (main Sample.no_decoder)
     = [ [ ("file", VStr "/audio/episode1.mp3"); ("title", VNone);
           ("comments", VNone); ("duration", VNone);
           ("error", VStr "mutagen not installed"); ("length", VStr "2,048") ] ]
  /\ (forall r, In r (results (main Sample.no_decoder)) ->
        getitem r "description" = None
        /\ getitem r "comments" = Some VNone
        /\ getitem Sample.scenario_record "comments" = None
        /\ getitem Sample.scenario_record "description" = Some VNone).
Proof.
  split; [reflexivity|]. split; [reflexivity|].
  intros r [<- | []]. repeat split.
Qed.

(** ** Strings *)

Lemma length_append (a b : string) :
  String.length (a ++ b) = (String.length a + String.length b)%nat.
Proof. induction a; simpl; auto. Qed.

Lemma append_nil_r (a : string) : a ++ "" = a.
Proof. induction a; simpl; congruence. Qed.

Lemma append_assoc (a b c : string) : (a ++ b) ++ c = a ++ (b ++ c).
Proof. induction a; simpl; congruence. Qed.

Lemma list_of_append (a b : string) :
  list_ascii_of_string (a ++ b)
  = (list_ascii_of_string a ++ list_ascii_of_string b)%list.
Proof. induction a; simpl; congruence. Qed.

Lemma string_of_app (a b : list ascii) :
  string_of_list_ascii (a ++ b)
  = string_of_list_ascii a ++ string_of_list_ascii b.
Proof. induction a; simpl; congruence. Qed.

Lemma length_list_of_string (s : string) :
  List.length (list_ascii_of_string s) = String.length s.
Proof. induction s; simpl; congruence. Qed.

Lemma substring_whole (s : string) : substring 0 (String.length s) s = s.
Proof. induction s; simpl; congruence. Qed.

Lemma substring_skip (a b : string) (m : nat) :
  substring (String.length a) m (a ++ b) = substring 0 m b.
Proof. induction a; simpl; auto. Qed.

Lemma substring_tail (s : string) :
  forall k, (k <= String.length s)%nat ->
  exists pre, s = pre ++ substring k (String.length s - k) s.
Proof.
  induction s as [|c t IH]; intros k Hk.
  - exists "". destruct k; reflexivity.
  - destruct k as [|k].
    + exists "". rewrite Nat.sub_0_r, substring_whole. reflexivity.
    + simpl in Hk. destruct (IH k) as [pre Hpre]; [lia|].
      exists (String c pre). simpl. now rewrite <- Hpre.
Qed.

(** [endswith] holds of the strings that are the suffix after something. *)
Lemma endswith_iff (s suffix : string) :
  endswith s suffix = true <-> exists pre, s = pre ++ suffix.
Proof.
  unfold endswith. rewrite andb_true_iff, Nat.leb_le, String.eqb_eq. split.
  - intros [Hle Hsub].
    destruct (substring_tail s (String.length s - String.length suffix)) as [pre Hpre];
      [lia|].
    exists pre.
    replace (String.length s - (String.length s - String.length suffix))%nat
      with (String.length suffix) in Hpre by lia.
    now rewrite Hsub in Hpre.
  - intros [pre ->]. rewrite length_append. split; [lia|].
    replace (String.length pre + String.length suffix - String.length suffix)%nat
      with (String.length pre) by lia.
    rewrite substring_skip. apply substring_whole.
Qed.

Lemma lower_append (a b : string) : lower (a ++ b) = lower a ++ lower b.
Proof. induction a; simpl; congruence. Qed.

Lemma lower_split (a b : string) :
  forall s, lower s = a ++ b ->
  exists a' b', s = a' ++ b' /\ lower a' = a /\ lower b' = b.
Proof.
  induction a as [|c a IH]; intros s H.
  - exists "", s. auto.
  - destruct s as [|c' s]; [discriminate|]. simpl in H.
    injection H as Hc Hs. destruct (IH s Hs) as [a' [b' [-> [Ha Hb]]]].
    exists (String c' a'), b'. simpl. repeat split; congruence.
Qed.

Lemma lower_ascii_letters (c : ascii) :
  Ascii.eqb (lower_ascii c) "." = Ascii.eqb c "."
  /\ Ascii.eqb (lower_ascii c) "m" = Spec.one_of "m" "M" c
  /\ Ascii.eqb (lower_ascii c) "p" = Spec.one_of "p" "P" c
  /\ Ascii.eqb (lower_ascii c) "3" = Ascii.eqb c "3".
Proof.
  destruct c as [[|] [|] [|] [|] [|] [|] [|] [|]]; repeat split.
Qed.

Lemma audio_extension_iff (name : string) :
  Spec.audio_extension name = true
  <-> exists pre c1 c2 c3 c4,
        name = pre ++ four c1 c2 c3 c4 /\ extension_letters c1 c2 c3 c4 = true.
Proof.
  unfold Spec.audio_extension. split.
  - destruct (rev (list_ascii_of_string name)) as [|c4 [|c3 [|c2 [|c1 r]]]] eqn:E;
      try discriminate.
    intros H. exists (string_of_list_ascii (rev r)), c1, c2, c3, c4.
    split; [|exact H].
    rewrite <- (string_of_list_ascii_of_string name).
    rewrite <- (rev_involutive (list_ascii_of_string name)), E.
    simpl. rewrite <- !app_assoc. rewrite string_of_app. reflexivity.
  - intros [pre [c1 [c2 [c3 [c4 [-> H]]]]]].
    rewrite list_of_append, rev_app_distr. simpl. exact H.
Qed.

Lemma endswith_lower_iff (name : string) :
  endswith (lower name) ".mp3" = true
  <-> exists pre c1 c2 c3 c4,
        name = pre ++ four c1 c2 c3 c4 /\ extension_letters c1 c2 c3 c4 = true.
Proof.
  rewrite endswith_iff. split.
  - intros [pre H]. apply lower_split in H.
    destruct H as [a' [b' [-> [_ Hb]]]].
    destruct b' as [|c1 [|c2 [|c3 [|c4 [|]]]]]; try discriminate.
    exists a', c1, c2, c3, c4. split; [reflexivity|].
    simpl in Hb. injection Hb as H1 H2 H3 H4.
    unfold extension_letters.
    destruct (lower_ascii_letters c1) as [<- _].
    destruct (lower_ascii_letters c2) as [_ [<- _]].
    destruct (lower_ascii_letters c3) as [_ [_ [<- _]]].
    destruct (lower_ascii_letters c4) as [_ [_ [_ <-]]].
    rewrite H1, H2, H3, H4. reflexivity.
  - intros [pre [c1 [c2 [c3 [c4 [-> H]]]]]].
    exists (lower pre). rewrite lower_append. f_equal.
    unfold extension_letters in H.
    destruct (lower_ascii_letters c1) as [E1 _].
    destruct (lower_ascii_letters c2) as [_ [E2 _]].
    destruct (lower_ascii_letters c3) as [_ [_ [E3 _]]].
    destruct (lower_ascii_letters c4) as [_ [_ [_ E4]]].
    rewrite <- E1, <- E2, <- E3, <- E4 in H.
    rewrite !andb_true_iff, !Ascii.eqb_eq in H.
    destruct H as [[[H1 H2] H3] H4]. simpl. now rewrite H1, H2, H3, H4.
Qed.

(** The test of line 30 is the filter of the specification. *)
Lemma filter_test (entry : string * node) :
  isfile (snd entry) && endswith (lower (fst entry)) ".mp3" = Spec.passes entry.
Proof.
  unfold Spec.passes. f_equal. apply eq_true_iff_eq.
  now rewrite endswith_lower_iff, audio_extension_iff.
Qed.

(** ** The scanner *)

Lemma get_mp3_files_filter (directory : string) (t : tree) :
  get_mp3_files directory t
  = map (Spec.candidate_of directory) (filter Spec.passes (listdir t)).
Proof.
  unfold get_mp3_files. destruct t as [entries|]; [|reflexivity].
  cbn [exists_ listdir].
  induction entries as [|[filename n] rest IH]; [reflexivity|].
  cbn [flat_map filter map]. rewrite <- (filter_test (filename, n)).
  cbn [fst snd].
  destruct (isfile n && endswith (lower filename) ".mp3");
    cbn [app map]; now rewrite IH.
Qed.

Lemma main_loop_map (mutagen : option decoder) (mp3_files : list candidate) :
  forall results,
    main_loop mutagen mp3_files results
    = (results ++ map (record_of mutagen) mp3_files)%list.
Proof.
  induction mp3_files as [|c rest IH]; intros results; simpl.
  - now rewrite app_nil_r.
  - rewrite IH, <- app_assoc. reflexivity.
Qed.

Lemma results_main (w : world) :
  results (main w)
  = map (record_of (mutagen w)) (get_mp3_files "audio" (audio w)).
Proof.
  unfold main. destruct (yaml w); simpl; now rewrite main_loop_map.
Qed.

(** C4. In every run the list of records is as long as the list of the
    entries of the directory that pass the filter (a regular file with the
    audio extension in either case), whatever the decoder does with them:
    the records are, in order, the ones of the entries that pass. *)
Theorem one_record_per_filtered_file :
  forall w : world,
    List.length (results (main w))
    = List.length (filter Spec.passes (listdir (audio w)))
    /\ results (main w)
       = map (fun entry => record_of (mutagen w) (Spec.candidate_of "audio" entry))
             (filter Spec.passes (listdir (audio w))).
Proof.
  intros w. rewrite results_main, get_mp3_files_filter, map_map.
  split; [|reflexivity]. now rewrite length_map.
Qed.

(** C5. An entry of the directory becomes a candidate exactly when it is a
    regular file whose name ends with [.mp3] in either case: the candidates
    are those entries, in the order of the listing, each once; what a
    directory holds is never looked at. The directory with [a.MP3],
    [b.txt] and the subdirectory [c.mp3] gives the one candidate [a.MP3]. *)
Theorem scanner_filter :
  (forall (directory : string) (entries : list (string * node)),
     get_mp3_files directory (Some entries)
     = map (Spec.candidate_of directory) (filter Spec.passes entries)
     /\ (forall c, In c (get_mp3_files directory (Some entries))
                   <-> exists entry, In entry entries
                                     /\ isfile (snd entry) = true
                                     /\ Spec.audio_extension (fst entry) = true
                                     /\ c = Spec.candidate_of directory entry))
  /\ (forall directory before name children after,
        get_mp3_files directory
          (Some (before ++ (name, Directory children) :: after)%list)
        = get_mp3_files directory (Some (before ++ after)%list))
  /\ map filename (get_mp3_files "audio" (Some Sample.mixed_dir)) = ["/audio/a.MP3"]
  /\ map path (get_mp3_files "audio" (Some Sample.mixed_dir)) = ["audio/a.MP3"].
Proof.
  split; [|split; [|split; reflexivity]].
  - intros directory entries.
    split; [apply get_mp3_files_filter|].
    intros c. rewrite get_mp3_files_filter, in_map_iff. simpl. split.
    + intros [entry [<- Hf]]. apply filter_In in Hf. destruct Hf as [Hi Hp].
      unfold Spec.passes in Hp. apply andb_true_iff in Hp.
      exists entry. tauto.
    + intros [entry [Hi [Hf [He ->]]]]. exists entry. split; [reflexivity|].
      apply filter_In. split; [assumption|].
      unfold Spec.passes. now rewrite Hf, He.
  - intros directory before name children after.
    rewrite !get_mp3_files_filter. simpl. rewrite !filter_app. reflexivity.
Qed.

(** ** Writing numbers *)

Lemma string_of_uint_digits (d : Decimal.uint) :
  forallb is_digit (list_ascii_of_string (NilEmpty.string_of_uint d)) = true.
Proof. induction d; simpl; auto. Qed.

Lemma str_N_digits (n : N) :
  forallb is_digit (list_ascii_of_string (str_N n)) = true.
Proof. apply string_of_uint_digits. Qed.

Lemma digit_not_comma (c : ascii) : is_digit c = true -> not_comma c = true.
Proof.
  destruct c as [[|] [|] [|] [|] [|] [|] [|] [|]]; vm_compute; congruence.
Qed.

Lemma digits_not_commas (l : list ascii) :
  forallb is_digit l = true -> forallb not_comma l = true.
Proof.
  induction l as [|c t IH]; simpl; [auto|].
  rewrite !andb_true_iff. intros [Hc Ht]. auto using digit_not_comma.
Qed.

Lemma not_comma_neq (c : ascii) : not_comma c = true -> c <> ","%char.
Proof. intros H ->. discriminate. Qed.

Lemma insert_sep_filter (l : list ascii) :
  forallb not_comma l = true ->
  forall k, filter not_comma (insert_sep l k) = l.
Proof.
  induction l as [|c t IH]; simpl; [auto|].
  rewrite andb_true_iff. intros [Hc Ht] k.
  destruct k; simpl; rewrite Hc, IH; auto.
Qed.

Lemma insert_sep_places (l : list ascii) :
  forallb not_comma l = true ->
  forall k i, (k <= 3)%nat -> (i < List.length (insert_sep l k))%nat ->
    (nth i (insert_sep l k) "0"%char = ","%char <-> (i mod 4 = k)%nat).
Proof.
  induction l as [|c t IH]; cbn [forallb insert_sep].
  - intros _ k i _ Hi. cbn [List.length] in Hi. lia.
  - rewrite andb_true_iff. intros [Hc Ht] k i Hk Hi.
    apply not_comma_neq in Hc.
    pose proof (Nat.div_mod_eq i 4) as Hdiv.
    pose proof (Nat.mod_upper_bound i 4 ltac:(discriminate)) as Hup.
    destruct k as [|k]; cbn [List.length] in Hi.
    + destruct i as [|[|j]]; cbn [nth].
      * split; reflexivity.
      * split; [contradiction|]. intros H. rewrite H in Hdiv. lia.
      * rewrite (IH Ht 2%nat j) by lia.
        pose proof (Nat.div_mod_eq j 4). pose proof (Nat.mod_upper_bound j 4).
        lia.
    + destruct i as [|j]; cbn [nth].
      * split; [contradiction|]. intros H. rewrite H in Hdiv. lia.
      * rewrite (IH Ht k j) by lia.
        pose proof (Nat.div_mod_eq j 4). pose proof (Nat.mod_upper_bound j 4).
        lia.
Qed.

(** The grouping of a digit string is the string with commas at the
    places 3, 7, 11, ... from the right. *)
Lemma group3_grouped (n : N) : Spec.grouped (group3 (str_N n)) n.
Proof.
  pose proof (digits_not_commas _ (str_N_digits n)) as Hd.
  assert (Hr : forallb not_comma (rev (list_ascii_of_string (str_N n))) = true).
  { rewrite forallb_forall in *. intros c Hc. apply Hd. now apply in_rev. }
  unfold Spec.grouped, group3. rewrite list_ascii_of_string_of_list_ascii. split.
  - change (fun c => negb (Spec.is_comma c)) with not_comma.
    rewrite filter_rev, insert_sep_filter by exact Hr.
    rewrite rev_involutive. apply string_of_list_ascii_of_string.
  - intros i Hi. rewrite rev_involutive.
    rewrite <- length_list_of_string, list_ascii_of_string_of_list_ascii,
      length_rev in Hi.
    now apply insert_sep_places.
Qed.

Lemma format_comma_size (n : N) : format_comma (Z.of_N n) = group3 (str_N n).
Proof.
  unfold format_comma. rewrite Zabs2N.id.
  destruct (Z.ltb_spec (Z.of_N n) 0); [lia|reflexivity].
Qed.

(** C7. The records of a run are the records of the scanned candidates,
    in order. For every candidate, which stands for an entry of the
    directory with the fixed prefix before its name and with its size, the
    main loop sets [file] to the display name whatever the extractor
    returned, so also over the path that an error record has there, and
    sets [length] to the size with a comma every three digits from the
    right; both keys are in every record. 1234567 is written
    ["1,234,567"] and 999 is written ["999"]. *)
Theorem merge_sets_file_and_length :
  forall w : world,
    results (main w)
    = map (record_of (mutagen w)) (get_mp3_files "audio" (audio w))
    /\ (forall mp3_info : candidate,
          In mp3_info (get_mp3_files "audio" (audio w)) ->
          (exists name n,
             In (name, n) (listdir (audio w))
             /\ filename mp3_info = "/audio/" ++ name
             /\ size mp3_info = getsize n)
          /\ getitem (record_of (mutagen w) mp3_info) "file"
             = Some (VStr (filename mp3_info))
          /\ (exists len,
                getitem (record_of (mutagen w) mp3_info) "length" = Some (VStr len)
                /\ Spec.grouped len (size mp3_info))
          /\ (Spec.extraction_fails (mutagen w) (path mp3_info) ->
              getitem (get_title_and_comments (mutagen w) (path mp3_info)) "file"
              = Some (VStr (path mp3_info))))
    /\ format_comma 1234567 = "1,234,567"
    /\ format_comma 999 = "999".
Proof.
  intros w. split; [apply results_main|]. split; [|split; reflexivity].
  intros mp3_info Hin. split; [|split; [|split]].
  - rewrite get_mp3_files_filter, in_map_iff in Hin.
    destruct Hin as [[name n] [<- Hf]]. apply filter_In in Hf.
    exists name, n. repeat split. tauto.
  - unfold record_of.
    rewrite getitem_setitem_other by discriminate. apply getitem_setitem_same.
  - eexists. split; [apply getitem_setitem_same|].
    rewrite format_comma_size. apply group3_grouped.
  - intros Hfail.
    destruct (extractor_cases (mutagen w) (path mp3_info))
      as [[_ [msg ->]] | [Hok _]]; [reflexivity|contradiction].
Qed.

(** ** Durations *)

Lemma Qfloor_div_pos (q : Q) (n : positive) :
  Qfloor (q / inject_Z (Zpos n)) = Qfloor q / Zpos n.
Proof.
  destruct q as [a b]. unfold Qdiv, Qinv, Qmult, Qfloor, inject_Z; simpl.
  rewrite Z.mul_1_r, Pos2Z.inj_mul, Z.div_div by lia. reflexivity.
Qed.

Lemma Qfloor_minus_Z (q : Q) (k : Z) :
  Qfloor (q - inject_Z k) = Qfloor q - k.
Proof.
  destruct q as [a b]. unfold Qminus, Qplus, Qopp, Qfloor, inject_Z; simpl.
  rewrite Z.mul_1_r, Pos.mul_1_r.
  replace (a + - k * Zpos b) with (a + (- k) * Zpos b) by lia.
  rewrite Z.div_add by lia. lia.
Qed.

Lemma Qfloor_fmod (q : Q) (n : positive) :
  Qfloor (Spec.fmod q (Zpos n)) = Qfloor q mod Zpos n.
Proof.
  unfold Spec.fmod. rewrite <- inject_Z_mult, Qfloor_minus_Z, Qfloor_div_pos.
  rewrite Z.mod_eq by lia. reflexivity.
Qed.

(** For a float that is a number and not below zero, [int] is the floor. *)
Lemma int_of_float_floor (x : float) (q : Q) :
  float_value x = Some q -> (0 <= q)%Q -> int_of_float x = Ok (Qfloor q).
Proof.
  destruct x as [s|s| |s m e]; simpl; try discriminate.
  - intros [= <-] _. reflexivity.
  - intros [= <-] Hq. destruct s.
    + exfalso. destruct e as [|p|p]; unfold Qle in Hq; cbn [Qnum Qden] in Hq.
      * lia.
      * pose proof (Z.pow_pos_nonneg 2 (Zpos p)). nia.
      * lia.
    + f_equal. destruct e as [|p|p]; unfold Qfloor.
      * rewrite Z.shiftl_0_r, Z.div_1_r. reflexivity.
      * rewrite Z.shiftl_mul_pow2, Z.div_1_r by lia. reflexivity.
      * change (Z.shiftl (Zpos m) (Zneg p)) with (Z.shiftr (Zpos m) (Zpos p)).
        rewrite Z.shiftr_div_pow2, Pos2Z.inj_pow by lia. reflexivity.
Qed.

Lemma trunc_nonneg (q : Q) : (0 <= q)%Q -> Spec.trunc q = Qfloor q.
Proof.
  intros H. unfold Spec.trunc. apply Qle_bool_iff in H. now rewrite H.
Qed.

Lemma Qfloor_nonneg (q : Q) : (0 <= q)%Q -> 0 <= Qfloor q.
Proof.
  intros H. change 0 with (Qfloor 0). now apply Qfloor_resp_le.
Qed.

Lemma length_string_of_uint (d : Decimal.uint) :
  d <> Decimal.Nil -> (1 <= String.length (NilEmpty.string_of_uint d))%nat.
Proof. destruct d; simpl; intros H; try lia. congruence. Qed.

Lemma length_str_N (n : N) : (1 <= String.length (str_N n))%nat.
Proof.
  unfold str_N. apply length_string_of_uint. destruct n as [|p]; simpl.
  - discriminate.
  - apply DecimalPos.Unsigned.to_uint_nonnil.
Qed.

Lemma format_zero_nonneg (n : Z) :
  0 <= n ->
  format_zero 2 n = zeros (2 - String.length (str_N (Z.abs_N n))) ++ str_N (Z.abs_N n).
Proof.
  intros H. unfold format_zero. destruct (Z.ltb_spec n 0); [lia|reflexivity].
Qed.

(** On the numbers from zero on, the format [02] is the padding of the
    specification. *)
Lemma format_zero_pad2 (n : Z) : 0 <= n -> format_zero 2 n = Spec.pad2 n.
Proof.
  intros H. rewrite format_zero_nonneg by assumption. unfold Spec.pad2.
  destruct (Z.ltb_spec n 0); [lia|].
  pose proof (length_str_N (Z.abs_N n)) as Hl.
  destruct (String.length (str_N (Z.abs_N n))) as [|[|k]]; [lia| |]; reflexivity.
Qed.

Lemma components_nonneg (t : Z) :
  0 <= t -> 0 <= t / 3600 /\ 0 <= t mod 3600 / 60 < 60 /\ 0 <= t mod 60 < 60.
Proof.
  intros H. pose proof (Z.mod_pos_bound t 3600). pose proof (Z.mod_pos_bound t 60).
  repeat split; try lia.
  - apply Z.div_pos; lia.
  - apply Z.div_pos; lia.
  - apply Z.div_lt_upper_bound; lia.
Qed.

Lemma components_sum (t : Z) :
  t / 3600 * 3600 + t mod 3600 / 60 * 60 + t mod 60 = t.
Proof.
  pose proof (Z.div_mod t 3600). pose proof (Z.div_mod (t mod 3600) 60).
  assert (t mod 3600 mod 60 = t mod 60).
  { change 3600 with (60 * 60). rewrite Z.rem_mul_r by lia.
    rewrite Z.mul_comm, Z.mod_add by lia. apply Z.mod_mod. lia. }
  lia.
Qed.

(** [format_duration] on a number from zero on, by its integer part. *)
Lemma format_duration_floor (x : float) (q : Q) :
  float_value x = Some q -> (0 <= q)%Q ->
  format_duration (Some x)
  = Ok (Some (format_zero 2 (Qfloor q / 3600) ++ ":"
              ++ format_zero 2 (Qfloor q mod 3600 / 60) ++ ":"
              ++ format_zero 2 (Qfloor q mod 60))).
Proof.
  intros Hv Hq. unfold format_duration.
  now rewrite (int_of_float_floor x q Hv Hq).
Qed.

Lemma hhmmss_floor (q : Q) :
  Spec.hhmmss q
  = Spec.pad2 (Qfloor q / 3600) ++ ":" ++ Spec.pad2 (Qfloor q mod 3600 / 60)
    ++ ":" ++ Spec.pad2 (Qfloor q mod 60).
Proof.
  unfold Spec.hhmmss.
  now rewrite !Qfloor_div_pos, !Qfloor_fmod.
Qed.

(** A number written with one or two digits is below a hundred. *)
Lemma short_uint (d : Decimal.uint) :
  (String.length (NilEmpty.string_of_uint d) <= 2)%nat -> (N.of_uint d < 100)%N.
Proof.
  destruct d as [|d|d|d|d|d|d|d|d|d|d]; try (intros _; reflexivity);
    (destruct d as [|d|d|d|d|d|d|d|d|d|d]; try (intros _; reflexivity));
    (destruct d; simpl; intros H; try reflexivity; lia).
Qed.

Lemma long_hours (h : Z) :
  100 <= h ->
  Spec.pad2 h = str_N (Z.abs_N h) /\ (3 <= String.length (Spec.pad2 h))%nat.
Proof.
  intros H.
  assert (Hl : (3 <= String.length (str_N (Z.abs_N h)))%nat).
  { destruct (Nat.le_gt_cases 3 (String.length (str_N (Z.abs_N h)))) as [|Hs];
      [assumption|].
    assert (Hshort : (N.of_uint (N.to_uint (Z.abs_N h)) < 100)%N)
      by (apply short_uint; unfold str_N in Hs; lia).
    rewrite DecimalN.Unsigned.of_to in Hshort. lia. }
  unfold Spec.pad2. destruct (Z.ltb_spec h 0); [lia|].
  destruct (Nat.ltb_spec (String.length (str_N (Z.abs_N h))) 2); [lia|].
  split; [reflexivity|exact Hl].
Qed.

(** C2, as amended. For a raw seconds value [S] that is a number and not
    below zero, [format_duration] returns [HH:MM:SS] with
    [HH = floor(S/3600)] written with at least two digits,
    [MM = floor((S mod 3600)/60)] and [SS = floor(S mod 60)]: the value
    is cut to its integer part, never rounded. The hours are not clamped:
    from a hundred hours on they are written in full, with three digits
    or more. *)
Theorem format_duration_hhmmss :
  forall (x : float) (q : Q),
    float_value x = Some q -> (0 <= q)%Q ->
    format_duration (Some x) = Ok (Some (Spec.hhmmss q))
    /\ (inject_Z 360000 <= q ->
        exists rest,
          Spec.hhmmss q = str_N (Z.abs_N (Qfloor (q / inject_Z 3600))) ++ rest
          /\ (3 <= String.length (str_N (Z.abs_N (Qfloor (q / inject_Z 3600)))))%nat)%Q.
Proof.
  intros x q Hv Hq.
  pose proof (Qfloor_nonneg q Hq) as Ht.
  destruct (components_nonneg (Qfloor q) Ht) as [Hh [Hm Hs]].
  split.
  - rewrite (format_duration_floor x q Hv Hq), hhmmss_floor.
    now rewrite !format_zero_pad2 by lia.
  - intros Hbig.
    assert (Hh100 : 100 <= Qfloor (q / inject_Z 3600)).
    { rewrite Qfloor_div_pos.
      apply Qfloor_resp_le in Hbig. rewrite Qfloor_Z in Hbig.
      apply Z.div_le_lower_bound; lia. }
    destruct (long_hours _ Hh100) as [Hpad Hlen].
    unfold Spec.hhmmss. rewrite Hpad. rewrite Hpad in Hlen. eauto.
Qed.

Lemma format_duration_hhmmss_witness :
  format_duration (Some Sample.seconds_3725_9) = Ok (Some "01:02:05")
  /\ format_duration (Some Sample.hundred_hours) = Ok (Some "100:00:00").
Proof.
  split.
  - refine (proj1 (format_duration_hhmmss Sample.seconds_3725_9
                     (8193340747861197 # 2199023255552) eq_refl _)).
    unfold Qle; simpl; lia.
  - refine (proj1 (format_duration_hhmmss Sample.hundred_hours
                     (360000 # 1) eq_refl _)).
    unfold Qle; simpl; lia.
Defined.

(** C2, as stated, fails below zero: -0.5 is cut to 0 and written
    [00:00:00], while [floor(-0.5/3600)] is -1. *)
Lemma format_duration_negative :
  float_value Sample.minus_half = Some (-1 # 2)
  /\ format_duration (Some Sample.minus_half) = Ok (Some "00:00:00")
  /\ Qfloor ((-1 # 2) / inject_Z 3600) = -1
  /\ ~ (forall (x : float) (q : Q),
          float_value x = Some q ->
          format_duration (Some x) = Ok (Some (Spec.hhmmss q))).
Proof.
  split; [reflexivity|]. split; [reflexivity|]. split; [reflexivity|].
  intros H. specialize (H Sample.minus_half (-1 # 2) eq_refl). discriminate.
Qed.

(** ** Reading a duration back *)

Lemma digit_not_colon (c : ascii) : is_digit c = true -> not_colon c = true.
Proof.
  destruct c as [[|] [|] [|] [|] [|] [|] [|] [|]]; vm_compute; congruence.
Qed.

Lemma zeros_digits (k : nat) : forallb is_digit (list_ascii_of_string (zeros k)) = true.
Proof. induction k; simpl; auto. Qed.

Lemma format_zero_digits (n : Z) :
  0 <= n -> forallb is_digit (list_ascii_of_string (format_zero 2 n)) = true.
Proof.
  intros H. rewrite format_zero_nonneg by assumption.
  rewrite list_of_append, forallb_app, zeros_digits. apply str_N_digits.
Qed.

Lemma split_colon_nonempty (s : string) : Spec.split_colon s <> [].
Proof.
  destruct s as [|c t]; simpl; [discriminate|].
  destruct (Ascii.eqb c ":"); [discriminate|].
  destruct (Spec.split_colon t); discriminate.
Qed.

Lemma split_colon_field (a rest : string) :
  forallb is_digit (list_ascii_of_string a) = true ->
  Spec.split_colon (a ++ String ":" rest) = a :: Spec.split_colon rest.
Proof.
  induction a as [|c a IH]; simpl.
  - reflexivity.
  - rewrite andb_true_iff. intros [Hc Ha].
    apply digit_not_colon in Hc. unfold not_colon in Hc.
    apply negb_true_iff in Hc. rewrite Hc, IH by assumption. reflexivity.
Qed.

Lemma split_colon_last (a : string) :
  forallb is_digit (list_ascii_of_string a) = true -> Spec.split_colon a = [a].
Proof.
  induction a as [|c a IH]; simpl.
  - reflexivity.
  - rewrite andb_true_iff. intros [Hc Ha].
    apply digit_not_colon in Hc. unfold not_colon in Hc.
    apply negb_true_iff in Hc. rewrite Hc, IH by assumption. reflexivity.
Qed.

Lemma uint_of_zeros (k : nat) (s : string) (d : Decimal.uint) :
  NilEmpty.uint_of_string s = Some d ->
  exists d', NilEmpty.uint_of_string (zeros k ++ s) = Some d'
             /\ N.of_uint d' = N.of_uint d.
Proof.
  intros H. induction k as [|k [d' [Hd' He]]]; simpl.
  - eauto.
  - rewrite Hd'. simpl. exists (Decimal.D0 d'). split; [reflexivity|exact He].
Qed.

Lemma read_number_format_zero (n : Z) :
  0 <= n -> Spec.read_number (format_zero 2 n) = Some n.
Proof.
  intros H. rewrite format_zero_nonneg by assumption.
  destruct (uint_of_zeros (2 - String.length (str_N (Z.abs_N n))) (str_N (Z.abs_N n))
              (N.to_uint (Z.abs_N n)) (NilEmpty.usu _)) as [d' [Hd' He]].
  pose proof (length_str_N (Z.abs_N n)) as Hl.
  unfold Spec.read_number.
  destruct (zeros _ ++ str_N (Z.abs_N n)) as [|c t] eqn:E.
  - apply (f_equal String.length) in E. rewrite length_append in E. simpl in E. lia.
  - rewrite Hd'. simpl. rewrite He, DecimalN.Unsigned.of_to.
    f_equal. rewrite N2Z.inj_abs_N. lia.
Qed.

Lemma read_duration_format (h m s : Z) :
  0 <= h -> 0 <= m -> 0 <= s ->
  Spec.read_duration (format_zero 2 h ++ ":" ++ format_zero 2 m ++ ":" ++ format_zero 2 s)
  = Some (h, m, s).
Proof.
  intros Hh Hm Hs. unfold Spec.read_duration.
  change (":" ++ format_zero 2 m ++ ":" ++ format_zero 2 s)
    with (String ":" (format_zero 2 m ++ String ":" (format_zero 2 s))).
  rewrite !split_colon_field, split_colon_last by now apply format_zero_digits.
  now rewrite !read_number_format_zero.
Qed.

(** C10. For a seconds value [S] that is a number and not below zero the
    output of [format_duration] is made of the three fields hours, minutes
    and seconds, which can be read back from it, with the minutes and the
    seconds from 0 to 59 and [hours*3600 + minutes*60 + seconds] equal to
    [S] cut to its integer part. The function returns [None] for the input
    [None] and for no other. *)
Theorem format_duration_round_trip :
  forall (x : float) (q : Q),
    float_value x = Some q -> (0 <= q)%Q ->
    (exists h m s out,
       format_duration (Some x) = Ok (Some out)
       /\ out = format_zero 2 h ++ ":" ++ format_zero 2 m ++ ":" ++ format_zero 2 s
       /\ Spec.read_duration out = Some (h, m, s)
       /\ 0 <= h /\ 0 <= m < 60 /\ 0 <= s < 60
       /\ h * 3600 + m * 60 + s = Spec.trunc q)
    /\ (forall seconds : option float,
          format_duration seconds = Ok None <-> seconds = None).
Proof.
  intros x q Hv Hq. split.
  - pose proof (Qfloor_nonneg q Hq) as Ht.
    destruct (components_nonneg (Qfloor q) Ht) as [Hh [Hm Hs]].
    exists (Qfloor q / 3600), (Qfloor q mod 3600 / 60), (Qfloor q mod 60).
    eexists. split; [apply (format_duration_floor x q Hv Hq)|].
    split; [reflexivity|].
    split; [apply read_duration_format; lia|].
    rewrite trunc_nonneg by assumption.
    repeat split; try lia. apply components_sum.
  - intros seconds. split.
    + destruct seconds as [y|]; [|reflexivity].
      unfold format_duration, bind. destruct (int_of_float y); discriminate.
    + intros ->. reflexivity.
Qed.

Lemma format_duration_round_trip_witness :
  (exists h m s out,
     format_duration (Some Sample.seconds_3725_9) = Ok (Some out)
     /\ out = format_zero 2 h ++ ":" ++ format_zero 2 m ++ ":" ++ format_zero 2 s
     /\ Spec.read_duration out = Some (h, m, s)
     /\ 0 <= h /\ 0 <= m < 60 /\ 0 <= s < 60
     /\ h * 3600 + m * 60 + s = 3725)
  /\ (forall seconds : option float,
        format_duration seconds = Ok None <-> seconds = None).
Proof.
  refine (format_duration_round_trip Sample.seconds_3725_9
            (8193340747861197 # 2199023255552) eq_refl _).
  unfold Qle; simpl; lia.
Defined.

(** ** The run *)

(** C6, as stated, fails when PyYAML is missing: the scan of the missing
    directory still gives nothing, but no document is written. *)
Lemma missing_directory_without_yaml :
  audio Sample.no_directory_no_yaml = None
  /\ results (main Sample.no_directory_no_yaml) = []
  /\ episodes_yml (main Sample.no_directory_no_yaml) = None
  /\ ~ (forall w : world,
          audio w = None -> exists doc, episodes_yml (main w) = Some doc).
Proof.
  repeat split. intros H.
  destruct (H Sample.no_directory_no_yaml eq_refl) as [doc Hdoc]. discriminate.
Qed.

(** C6, as amended. When the input directory does not exist the scanner
    returns the empty list and raises nothing, the run has no record, and,
    PyYAML being there, it writes the document, which holds the empty
    sequence. *)
Theorem missing_directory_empty_document :
  forall w : world,
    audio w = None -> yaml w = true ->
    (forall directory, get_mp3_files directory (audio w) = [])
    /\ results (main w) = []
    /\ episodes_yml (main w) = Some []
    /\ printed (main w) = "YAML written to episodes.yml".
Proof.
  intros w Hdir Hyaml. unfold main. rewrite Hdir, Hyaml. repeat split.
Qed.

Lemma missing_directory_empty_document_witness :
  (forall directory, get_mp3_files directory (audio Sample.no_directory) = [])
  /\ results (main Sample.no_directory) = []
  /\ episodes_yml (main Sample.no_directory) = Some []
  /\ printed (main Sample.no_directory) = "YAML written to episodes.yml".
Proof.
  apply (missing_directory_empty_document Sample.no_directory); reflexivity.
Defined.

(** ** The document *)















(** ** Further properties of the extractor *)

(** What a read returns once both views of the file are open. *)
Lemma read_tags_opened (m : decoder) (mp3_file : string) (tags : id3) (a : mp3) :
  ID3 m mp3_file = Ok tags -> MP3 m mp3_file = Ok a ->
  read_tags m mp3_file
  = bind (format_duration (Reads.reported_length a)) (fun d =>
      Ok [ ("title", of_option (Reads.first_title tags));
           ("description",
            match Reads.first_comment tags with
            | Some c => if (String.length c =? 0)%nat then VNone else VStr c
            | None => VNone
            end);
           ("duration", of_option d) ]).
Proof.
  intros Hid3 Hmp3. unfold read_tags. rewrite Hid3, Hmp3. cbn [bind].
  unfold Reads.reported_length, Reads.first_title, Reads.first_comment.
  destruct (TIT2 tags) as [f|]; [destruct (text f)|];
    (destruct (COMM tags) as [|g rest]; [|destruct (text g)]);
    (destruct (truthy a); [destruct (info a)|]); reflexivity.
Qed.

(** X1. The record of a file depends on the tags only through the first
    text of the title frame, the first text of the first comment frame and
    the length the stream reports: further texts and further comment frames
    never show. *)
Theorem extractor_reads_first_entries :
  forall (m m' : decoder) (mp3_file : string) (tags tags' : id3) (a a' : mp3),
    ID3 m mp3_file = Ok tags -> ID3 m' mp3_file = Ok tags' ->
    MP3 m mp3_file = Ok a -> MP3 m' mp3_file = Ok a' ->
    Reads.first_title tags = Reads.first_title tags' ->
    Reads.first_comment tags = Reads.first_comment tags' ->
    Reads.reported_length a = Reads.reported_length a' ->
    get_title_and_comments (Some m) mp3_file
    = get_title_and_comments (Some m') mp3_file.
Proof.
  intros m m' mp3_file tags tags' a a' H1 H1' H2 H2' Ht Hc Hl.
  unfold get_title_and_comments.
  rewrite (read_tags_opened m mp3_file tags a H1 H2).
  rewrite (read_tags_opened m' mp3_file tags' a' H1' H2').
  now rewrite Ht, Hc, Hl.
Qed.

Lemma extractor_reads_first_entries_witness :
  get_title_and_comments (Some Sample.tagged) "audio/x.mp3"
  = get_title_and_comments (Some Reads.tagged_otherwise) "audio/x.mp3".
Proof.
  apply (extractor_reads_first_entries Sample.tagged Reads.tagged_otherwise
           "audio/x.mp3" _ _ _ _ eq_refl eq_refl eq_refl eq_refl);
    reflexivity.
Defined.

(** X2. The error field is the message of the first step that raises:
    when the tags do not open it is their message and the stream is not
    looked at, and when the tags open and the stream does not it is the
    message of the stream. The record is then the error record for the
    path. *)
Theorem first_failure_is_reported :
  forall (m : decoder) (mp3_file e : string),
    ID3 m mp3_file = Raise e
    \/ (exists tags, ID3 m mp3_file = Ok tags /\ MP3 m mp3_file = Raise e) ->
    get_title_and_comments (Some m) mp3_file = error_record mp3_file e
    /\ getitem (get_title_and_comments (Some m) mp3_file) "error" = Some (VStr e).
Proof.
  intros m mp3_file e H.
  assert (Hr : get_title_and_comments (Some m) mp3_file = error_record mp3_file e).
  { unfold get_title_and_comments, read_tags.
    destruct H as [-> | [tags [-> ->]]]; reflexivity. }
  rewrite Hr. split; reflexivity.
Qed.

Lemma first_failure_is_reported_witness :
  get_title_and_comments (Some Reads.no_stream) "audio/x.mp3"
  = error_record "audio/x.mp3" "can't sync to MPEG frame"
  /\ getitem (get_title_and_comments (Some Reads.no_stream) "audio/x.mp3") "error"
     = Some (VStr "can't sync to MPEG frame").
Proof.
  apply (first_failure_is_reported Reads.no_stream "audio/x.mp3").
  right. exists {| TIT2 := Some {| text := [Sample.cafe] |}; COMM := [] |}.
  split; reflexivity.
Defined.

Lemma format_duration_raises (x : float) :
  format_duration (Some x)
  = match Reads.int_message x with
    | Some e => Raise e
    | None => format_duration (Some x)
    end.
Proof. destruct x; reflexivity. Qed.

(** X3. A length that is NaN or infinite makes the whole extraction fail:
    though the tags were read, the record is the error record with the
    message of [int], and the title that was there is not in it. *)
Theorem bad_length_loses_the_tags :
  forall (m : decoder) (mp3_file e : string) (tags : id3) (a : mp3) (x : float),
    ID3 m mp3_file = Ok tags -> MP3 m mp3_file = Ok a ->
    Reads.reported_length a = Some x -> Reads.int_message x = Some e ->
    get_title_and_comments (Some m) mp3_file = error_record mp3_file e
    /\ getitem (get_title_and_comments (Some m) mp3_file) "title" = Some VNone.
Proof.
  intros m mp3_file e tags a x H1 H2 Hl He.
  assert (Hr : get_title_and_comments (Some m) mp3_file = error_record mp3_file e).
  { unfold get_title_and_comments.
    rewrite (read_tags_opened m mp3_file tags a H1 H2), Hl.
    rewrite format_duration_raises, He. reflexivity. }
  rewrite Hr. split; reflexivity.
Qed.

Lemma bad_length_loses_the_tags_witness :
  get_title_and_comments (Some Reads.nan_length) "audio/x.mp3"
  = error_record "audio/x.mp3" "cannot convert float NaN to integer"
  /\ getitem (get_title_and_comments (Some Reads.nan_length) "audio/x.mp3") "title"
     = Some VNone.
Proof.
  apply (bad_length_loses_the_tags Reads.nan_length "audio/x.mp3" _
           {| TIT2 := Some {| text := [Sample.cafe] |}; COMM := [] |}
           {| truthy := true; info := Some {| length := S754_nan |} |}
           S754_nan); reflexivity.
Defined.

(** X4. With the decoder there, an extraction fails in three cases and in
    no other: the tags do not open, the stream does not open, or the
    length the stream reports is NaN or infinite. *)
Theorem extraction_fails_iff :
  forall (m : decoder) (mp3_file : string),
    Spec.extraction_fails (Some m) mp3_file
    <-> (exists e, ID3 m mp3_file = Raise e)
        \/ (exists tags e, ID3 m mp3_file = Ok tags /\ MP3 m mp3_file = Raise e)
        \/ (exists tags a x,
              ID3 m mp3_file = Ok tags /\ MP3 m mp3_file = Ok a
              /\ Reads.reported_length a = Some x /\ float_value x = None).
Proof.
  intros m mp3_file. cbn [Spec.extraction_fails]. split.
  - intros [msg H].
    destruct (ID3 m mp3_file) as [tags|e] eqn:H1; [|left; eauto].
    destruct (MP3 m mp3_file) as [a|e] eqn:H2; [|right; left; eauto].
    right; right.
    rewrite (read_tags_opened m mp3_file tags a H1 H2) in H.
    destruct (Reads.reported_length a) as [x|] eqn:Hl; [|discriminate].
    exists tags, a, x.
    split; [reflexivity|]. split; [reflexivity|]. split; [exact Hl|].
    destruct x; try reflexivity;
      unfold format_duration, int_of_float, bind in H; discriminate.
  - intros [[e H] | [[tags [e [H1 H2]]] | [tags [a [x [H1 [H2 [Hl Hx]]]]]]]].
    + exists e. unfold read_tags. now rewrite H.
    + exists e. unfold read_tags. now rewrite H1, H2.
    + rewrite (read_tags_opened m mp3_file tags a H1 H2), Hl.
      destruct x; try discriminate; eexists; reflexivity.
Qed.

(** ** Further properties of the durations *)

Lemma finite_sign (s : bool) (m : positive) (e : Z) (q : Q) :
  float_value (S754_finite s m e) = Some q ->
  if s then (q < 0)%Q else (0 <= q)%Q.
Proof.
  simpl. intros [= <-].
  destruct s, e as [|p|p]; unfold Qlt, Qle; cbn [Qnum Qden]; try lia;
    pose proof (Z.pow_pos_nonneg 2 (Zpos p)); nia.
Qed.

Lemma Qopp_finite (m : positive) (e : Z) (q q' : Q) :
  float_value (S754_finite true m e) = Some q ->
  float_value (S754_finite false m e) = Some q' ->
  Qfloor (- q) = Qfloor q'.
Proof.
  simpl. intros [= <-] [= <-].
  destruct e as [|p|p]; unfold Qopp, Qfloor; cbn [Qnum Qden]; try reflexivity.
  destruct (Z.pow_pos 2 p); reflexivity.
Qed.

(** [int] cuts every float that is a number towards zero. *)
Lemma int_of_float_trunc (x : float) (q : Q) :
  float_value x = Some q -> int_of_float x = Ok (Spec.trunc q).
Proof.
  intros Hv. destruct x as [s|s| |s m e]; try discriminate.
  - injection Hv as <-. reflexivity.
  - pose proof (finite_sign s m e q Hv) as Hs. destruct s.
    + unfold Spec.trunc.
      destruct (Qle_bool 0 q) eqn:E.
      { apply Qle_bool_iff in E. exfalso. apply (Qlt_not_le _ _ Hs E). }
      unfold Qceiling.
      destruct (float_value (S754_finite false m e)) as [q'|] eqn:Hv';
        [|discriminate].
      rewrite (Qopp_finite m e q q' Hv Hv').
      pose proof (finite_sign false m e q' Hv') as Hq'.
      pose proof (int_of_float_floor _ _ Hv' Hq') as Hi.
      cbn [int_of_float] in *. injection Hi as Hi. now rewrite Hi.
    + rewrite trunc_nonneg by assumption. now apply int_of_float_floor.
Qed.

(** X5. For every float that is a number, below zero or not,
    [format_duration] writes three fields hours, minutes and seconds with
    the minutes and the seconds from 0 to 59 and
    [hours*3600 + minutes*60 + seconds] equal to the value cut towards
    zero: a value below -1 is written with hours below zero and minutes
    and seconds counted upwards, as -1.5 is written [-1:59:59]. *)
Theorem format_duration_all_numbers :
  forall (x : float) (q : Q),
    float_value x = Some q ->
    exists h m s,
      format_duration (Some x)
      = Ok (Some (format_zero 2 h ++ ":" ++ format_zero 2 m ++ ":" ++ format_zero 2 s))
      /\ 0 <= m < 60 /\ 0 <= s < 60
      /\ h * 3600 + m * 60 + s = Spec.trunc q.
Proof.
  intros x q Hv.
  exists (Spec.trunc q / 3600), (Spec.trunc q mod 3600 / 60), (Spec.trunc q mod 60).
  split.
  - unfold format_duration. now rewrite (int_of_float_trunc x q Hv).
  - pose proof (Z.mod_pos_bound (Spec.trunc q) 3600).
    pose proof (Z.mod_pos_bound (Spec.trunc q) 60).
    repeat split; try lia.
    + apply Z.div_pos; lia.
    + apply Z.div_lt_upper_bound; lia.
    + apply components_sum.
Qed.

Lemma format_duration_all_numbers_witness :
  exists h m s,
    format_duration (Some Reads.minus_one_and_a_half)
    = Ok (Some (format_zero 2 h ++ ":" ++ format_zero 2 m ++ ":" ++ format_zero 2 s))
    /\ 0 <= m < 60 /\ 0 <= s < 60
    /\ h * 3600 + m * 60 + s = -1.
Proof.
  exact (format_duration_all_numbers Reads.minus_one_and_a_half (-3 # 2) eq_refl).
Defined.

(** X6. [format_duration] raises for NaN and for the infinities, with the
    message of [int], and returns a string for every other float. *)
Theorem format_duration_raises_iff :
  forall x : float,
    ((exists e, format_duration (Some x) = Raise e) <-> float_value x = None)
    /\ ((exists out, format_duration (Some x) = Ok (Some out))
        <-> exists q, float_value x = Some q)
    /\ (forall e, format_duration (Some x) = Raise e -> Reads.int_message x = Some e).
Proof.
  intros x. split; [|split].
  - split.
    + intros [e H]. destruct x; try reflexivity;
        unfold format_duration, int_of_float, bind in H; discriminate.
    + intros H. destruct x; try discriminate; eexists; reflexivity.
  - split.
    + intros [out H]. destruct x; try discriminate; eexists; reflexivity.
    + intros [q H]. destruct x; try discriminate; eexists; reflexivity.
  - intros e H. destruct x;
      unfold format_duration, int_of_float, bind in H; try discriminate;
      injection H as <-; reflexivity.
Qed.

Lemma hms_determined (t u : Z) :
  t / 3600 = u / 3600 -> t mod 3600 / 60 = u mod 3600 / 60 -> t mod 60 = u mod 60 ->
  t = u.
Proof.
  intros H1 H2 H3. rewrite <- (components_sum t), <- (components_sum u). congruence.
Qed.

(** X7. For seconds values that are numbers and not below zero the string
    tells the whole seconds and nothing more: two values are written the
    same exactly when they have the same integer part. *)
Theorem format_duration_same_string :
  forall (x y : float) (qx qy : Q),
    float_value x = Some qx -> float_value y = Some qy ->
    (0 <= qx)%Q -> (0 <= qy)%Q ->
    (format_duration (Some x) = format_duration (Some y)
     <-> Spec.trunc qx = Spec.trunc qy).
Proof.
  intros x y qx qy Hx Hy Hqx Hqy.
  rewrite (format_duration_floor x qx Hx Hqx), (format_duration_floor y qy Hy Hqy).
  rewrite !trunc_nonneg by assumption.
  pose proof (Qfloor_nonneg qx Hqx) as Htx. pose proof (Qfloor_nonneg qy Hqy) as Hty.
  destruct (components_nonneg _ Htx) as [Hhx [Hmx Hsx]].
  destruct (components_nonneg _ Hty) as [Hhy [Hmy Hsy]].
  split.
  - intros H. injection H as H.
    pose proof (read_duration_format _ _ _ Hhx (proj1 Hmx) (proj1 Hsx)) as Rx.
    pose proof (read_duration_format _ _ _ Hhy (proj1 Hmy) (proj1 Hsy)) as Ry.
    assert (E : Some (Qfloor qx / 3600, Qfloor qx mod 3600 / 60, Qfloor qx mod 60)
                = Some (Qfloor qy / 3600, Qfloor qy mod 3600 / 60, Qfloor qy mod 60)).
    { rewrite <- Rx, <- Ry. apply (f_equal Spec.read_duration). exact H. }
    injection E as H1 H2 H3. now apply hms_determined.
  - intros ->. reflexivity.
Qed.

Lemma format_duration_same_string_witness :
  format_duration (Some Sample.seconds_3725_9) = format_duration (Some Reads.seconds_3725)
  <-> 3725 = 3725.
Proof.
  refine (format_duration_same_string Sample.seconds_3725_9 Reads.seconds_3725
            (8193340747861197 # 2199023255552) (3725 # 1) eq_refl eq_refl _ _);
    unfold Qle; simpl; lia.
Defined.

Lemma two_digits (n : Z) :
  0 <= n < 100 -> String.length (format_zero 2 n) = 2%nat.
Proof.
  intros H.
  assert (Hall : forallb (fun k => Nat.eqb (String.length (format_zero 2 (Z.of_nat k))) 2)
                         (seq 0 100) = true) by (vm_compute; reflexivity).
  rewrite forallb_forall in Hall.
  specialize (Hall (Z.to_nat n)). rewrite Z2Nat.id in Hall by lia.
  apply Nat.eqb_eq, Hall, in_seq. lia.
Qed.

Lemma at_least_two_digits (n : Z) :
  0 <= n -> (2 <= String.length (format_zero 2 n))%nat.
Proof.
  intros H. rewrite format_zero_nonneg, length_append by assumption.
  assert (Hz : forall k, String.length (zeros k) = k) by (induction k; simpl; auto).
  rewrite Hz. lia.
Qed.

(** X8. For a seconds value that is a number and not below zero the
    minutes and the seconds always take two characters each and the hours
    two or more: the string has eight characters at least, and exactly
    eight below a hundred hours. *)
Theorem format_duration_width :
  forall (x : float) (q : Q),
    float_value x = Some q -> (0 <= q)%Q ->
    exists out,
      format_duration (Some x) = Ok (Some out)
      /\ (8 <= String.length out)%nat
      /\ ((q < inject_Z 360000)%Q -> String.length out = 8%nat).
Proof.
  intros x q Hv Hq.
  pose proof (Qfloor_nonneg q Hq) as Ht.
  destruct (components_nonneg _ Ht) as [Hh [Hm Hs]].
  eexists. split; [apply (format_duration_floor x q Hv Hq)|].
  rewrite !length_append. cbn [String.length].
  rewrite (two_digits (Qfloor q mod 3600 / 60)) by lia.
  rewrite (two_digits (Qfloor q mod 60)) by lia.
  pose proof (at_least_two_digits _ Hh). split; [lia|].
  intros Hlt.
  assert (Hfl : Qfloor q < 360000).
  { rewrite Zlt_Qlt. eapply Qle_lt_trans; [apply Qfloor_le|exact Hlt]. }
  rewrite (two_digits (Qfloor q / 3600)); [reflexivity|].
  split; [assumption|]. apply Z.div_lt_upper_bound; lia.
Qed.

Lemma format_duration_width_witness :
  exists out,
    format_duration (Some Sample.seconds_3725_9) = Ok (Some out)
    /\ (8 <= String.length out)%nat
    /\ (((8193340747861197 # 2199023255552) < inject_Z 360000)%Q
        -> String.length out = 8%nat).
Proof.
  refine (format_duration_width Sample.seconds_3725_9
            (8193340747861197 # 2199023255552) eq_refl _).
  unfold Qle; simpl; lia.
Defined.

(** ** Further properties of the sizes *)

(** X9. The grouped size can be read back: with the commas dropped it is
    the size in decimal, so two sizes that differ are never written the
    same. *)
Theorem format_comma_round_trip :
  (forall n : N, Reads.read_grouped (format_comma (Z.of_N n)) = Some n)
  /\ (forall n m : N,
        format_comma (Z.of_N n) = format_comma (Z.of_N m) -> n = m).
Proof.
  assert (Hread : forall n : N, Reads.read_grouped (format_comma (Z.of_N n)) = Some n).
  { intros n. unfold Reads.read_grouped. rewrite format_comma_size.
    destruct (group3_grouped n) as [Hstrip _]. rewrite Hstrip.
    unfold str_N. rewrite NilEmpty.usu. cbn [option_map].
    now rewrite DecimalN.Unsigned.of_to. }
  split; [exact Hread|].
  intros n m H. pose proof (Hread n) as Hn. rewrite H, Hread in Hn. congruence.
Qed.

Lemma insert_sep_length (l : list ascii) :
  forall k, (k <= 3)%nat ->
    (List.length l <= List.length (insert_sep l k)
     /\ (l = []
         \/ (3 * (List.length (insert_sep l k) - List.length l) + k
             <= List.length l + 2
             /\ List.length l + 2
                < 3 * (List.length (insert_sep l k) - List.length l) + k + 3)))%nat.
Proof.
  induction l as [|c t IH]; intros k Hk; cbn [insert_sep List.length].
  - split; [lia|]. now left.
  - destruct k as [|k]; cbn [List.length].
    + destruct (IH 2%nat ltac:(lia)) as [H1 [-> | H2]];
        [cbn [insert_sep List.length]; split; [lia|right; lia]|].
      split; [lia|right; lia].
    + destruct (IH k ltac:(lia)) as [H1 [-> | H2]];
        [cbn [insert_sep List.length]; split; [lia|right; lia]|].
      split; [lia|right; lia].
Qed.

(** X10. A size of [d] digits is written with [(d - 1) / 3] commas: none
    up to 999, one up to 999,999, and so on. *)
Theorem format_comma_length :
  forall n : N,
    String.length (format_comma (Z.of_N n))
    = (String.length (str_N n) + (String.length (str_N n) - 1) / 3)%nat.
Proof.
  intros n. rewrite format_comma_size. unfold group3.
  rewrite <- length_list_of_string, list_ascii_of_string_of_list_ascii, length_rev.
  pose proof (length_str_N n) as Hd.
  destruct (insert_sep_length (rev (list_ascii_of_string (str_N n))) 3
              ltac:(lia)) as [H1 [H2 | H2]].
  - apply (f_equal (@List.length ascii)) in H2.
    rewrite length_rev, length_list_of_string in H2. cbn [List.length] in H2. lia.
  - rewrite length_rev, length_list_of_string in H1, H2.
    pose proof (Nat.div_mod_eq (String.length (str_N n) - 1) 3).
    pose proof (Nat.mod_upper_bound (String.length (str_N n) - 1) 3 ltac:(lia)).
    lia.
Qed.

(** ** Further properties of the scanner and of the main loop *)

(** X11. The display name and the size of a candidate do not depend on
    the directory that is scanned: the display name begins with [/audio/]
    whatever the argument of [get_mp3_files], and only the path follows
    the argument. *)
Theorem display_name_ignores_directory :
  forall (d1 d2 : string) (t : tree),
    map filename (get_mp3_files d1 t) = map filename (get_mp3_files d2 t)
    /\ map size (get_mp3_files d1 t) = map size (get_mp3_files d2 t)
    /\ (forall c, In c (get_mp3_files d1 t) ->
          exists name, In name (map fst (listdir t))
                       /\ filename c = "/audio/" ++ name
                       /\ path c = join d1 name).
Proof.
  intros d1 d2 t. rewrite !get_mp3_files_filter, !map_map. cbn [Spec.candidate_of filename size].
  split; [reflexivity|]. split; [reflexivity|].
  intros c Hc. apply in_map_iff in Hc. destruct Hc as [[name n] [<- Hf]].
  apply filter_In in Hf. exists name. split; [|split; reflexivity].
  apply in_map_iff. exists (name, n). tauto.
Qed.

(** X12. Nothing is carried from one file to the next: the scan of a
    listing made of two parts is the scan of the first followed by the
    scan of the second, and so are the records of the run. *)
Theorem scan_and_records_of_two_parts :
  forall (w : world) (directory : string) (l1 l2 : list (string * node)),
    get_mp3_files directory (Some (l1 ++ l2)%list)
    = (get_mp3_files directory (Some l1) ++ get_mp3_files directory (Some l2))%list
    /\ results (main (Reads.with_entries w (l1 ++ l2)%list))
       = (results (main (Reads.with_entries w l1))
          ++ results (main (Reads.with_entries w l2)))%list.
Proof.
  intros w directory l1 l2.
  assert (H : forall d, get_mp3_files d (Some (l1 ++ l2)%list)
              = (get_mp3_files d (Some l1) ++ get_mp3_files d (Some l2))%list).
  { intros d. rewrite !get_mp3_files_filter. cbn [listdir].
    now rewrite filter_app, map_app. }
  split; [apply H|].
  rewrite !results_main. cbn [Reads.with_entries audio mutagen].
  now rewrite H, map_app.
Qed.

Lemma filter_none {A : Type} (f : A -> bool) (l : list A) :
  (forall a, In a l -> f a = false) -> filter f l = [].
Proof.
  induction l as [|a t IH]; intros H; [reflexivity|].
  cbn [filter]. rewrite (H a (or_introl eq_refl)). apply IH.
  intros b Hb. apply H. now right.
Qed.

(** X13. A directory in which no entry is a regular file with the
    extension cannot be told from a missing one: the run leaves the same
    records, the same document and the same line. *)
Theorem nothing_to_scan_as_missing :
  forall w : world,
    (forall name n, In (name, n) (listdir (audio w)) ->
       isfile n = false \/ endswith (lower name) ".mp3" = false) ->
    main w = main {| audio := None; mutagen := mutagen w; yaml := yaml w |}.
Proof.
  intros w H.
  assert (He : get_mp3_files "audio" (audio w) = []).
  { rewrite get_mp3_files_filter, filter_none; [reflexivity|].
    intros [name n] Hin. rewrite <- filter_test. cbn [fst snd].
    destruct (H name n Hin) as [-> | ->]; [reflexivity|apply andb_false_r]. }
  unfold main. cbn [audio mutagen yaml]. now rewrite He.
Qed.

Lemma nothing_to_scan_as_missing_witness :
  main Reads.nothing_to_scan
  = main {| audio := None; mutagen := mutagen Reads.nothing_to_scan;
            yaml := yaml Reads.nothing_to_scan |}.
Proof.
  apply (nothing_to_scan_as_missing Reads.nothing_to_scan).
  intros name n [[= <- <-] | [[= <- <-] | []]]; [right|left]; reflexivity.
Defined.

(** X14. The main loop touches nothing but [file] and [length]: the other
    fields of the record are those the extractor returned, in their order,
    and [length] is always the last key. *)
Theorem merge_keeps_other_fields :
  forall (mutagen : option decoder) (mp3_info : candidate),
    filter Reads.other_field (record_of mutagen mp3_info)
    = filter Reads.other_field (get_title_and_comments mutagen (path mp3_info))
    /\ exists front,
         record_of mutagen mp3_info
         = (front ++ [("length", VStr (format_comma (Z.of_N (size mp3_info))))])%list
         /\ getitem front "length" = None.
Proof.
  intros mutagen mp3_info. unfold record_of.
  destruct (extractor_cases mutagen (path mp3_info))
    as [[_ [msg ->]] | [_ [t [c [d ->]]]]].
  - split; [reflexivity|].
    exists [ ("file", VStr (filename mp3_info)); ("title", VNone); ("comments", VNone);
             ("duration", VNone); ("error", VStr msg) ].
    split; reflexivity.
  - split; [reflexivity|].
    exists [ ("title", t); ("description", c); ("duration", d);
             ("file", VStr (filename mp3_info)) ].
    split; reflexivity.
Qed.
